(** * A drivable raycast vehicle: the per-frame glue of [src/main.js]

    [main.js] is one class, [Game].  Its constructor builds a physics world
    and a four-wheeled [CANNON.RaycastVehicle], registers keyboard handlers
    and starts the animation loop; every frame steps the world, maps the
    five input flags to per-wheel engine force, steering and brake, and
    copies the resulting poses to the meshes.

    JavaScript numbers are IEEE-754 doubles, so they are primitive floats
    here and a decimal literal denotes the double nearest to it, as it does
    in the source.  The physics engine (cannon-es) and the renderer (three)
    are third-party code: what the game reads back from them is modelled at
    the interface, the rigid-body dynamics itself is a parameter
    ([Engine]). *)

From Stdlib Require Import Ascii String PrimFloat.
From stdpp Require Import base list strings.

Set Warnings "-inexact-float".

(** ** The physics library's data, as far as [main.js] touches it *)

Module CANNON.

Record Vec3 := mkVec3 { x : float; y : float; z : float }.

Record Quaternion := mkQuaternion { qx : float; qy : float; qz : float; qw : float }.

Record Transform := mkTransform { position : Vec3; quaternion : Quaternion }.

(** [new CANNON.Vec3()] and [new CANNON.Quaternion()]. *)
Definition Vec3_zero : Vec3 := mkVec3 0 0 0.
Definition Quaternion_identity : Quaternion := mkQuaternion 0 0 0 1.
Definition Transform_identity : Transform := mkTransform Vec3_zero Quaternion_identity.

(** [v.set(x, y, z)] overwrites the three components of the object [v];
    the result is the object's new content. *)
Definition Vec3_set (v : Vec3) (x' y' z' : float) : Vec3 := mkVec3 x' y' z'.

(** Component [i] of a vector, for the vehicle's axis indices. *)
Definition Vec3_component (i : nat) (v : Vec3) : float :=
  match i with 0 => x v | 1 => y v | _ => z v end.

(** A rigid body: the fields the game sets or reads. *)
Record Body := mkBody {
  mass : float;
  shapes : list Vec3;            (* half extents of the boxes added *)
  body_position : Vec3;
  body_quaternion : Quaternion;
  velocity : Vec3;
  angularVelocity : Vec3
}.

(** [new CANNON.Body({ mass })]: at the origin, unrotated, at rest. *)
Definition Body_new (m : float) : Body :=
  mkBody m [] Vec3_zero Quaternion_identity Vec3_zero Vec3_zero.

Definition addShape (halfExtents : Vec3) (b : Body) : Body :=
  mkBody (mass b) (shapes b ++ [halfExtents]) (body_position b)
         (body_quaternion b) (velocity b) (angularVelocity b).

Definition set_position (p : Vec3) (b : Body) : Body :=
  mkBody (mass b) (shapes b) p (body_quaternion b) (velocity b) (angularVelocity b).

Definition set_angularVelocity (w : Vec3) (b : Body) : Body :=
  mkBody (mass b) (shapes b) (body_position b) (body_quaternion b) (velocity b) w.

(** The [options] object literal of [initVehicle]. *)
Record WheelOptions := mkWheelOptions {
  radius : float;
  directionLocal : Vec3;
  suspensionStiffness : float;
  suspensionRestLength : float;
  frictionSlip : float;
  dampingRelaxation : float;
  dampingCompression : float;
  maxSuspensionForce : float;
  rollInfluence : float;
  axleLocal : Vec3;
  chassisConnectionPointLocal : Vec3;
  maxSuspensionTravel : float;
  customSlidingRotationalSpeed : float;
  useCustomSlidingRotationalSpeed : bool
}.

Definition set_chassisConnectionPointLocal (p : Vec3) (o : WheelOptions) : WheelOptions :=
  mkWheelOptions (radius o) (directionLocal o) (suspensionStiffness o)
    (suspensionRestLength o) (frictionSlip o) (dampingRelaxation o)
    (dampingCompression o) (maxSuspensionForce o) (rollInfluence o) (axleLocal o)
    p (maxSuspensionTravel o) (customSlidingRotationalSpeed o)
    (useCustomSlidingRotationalSpeed o).

(** A wheel of the vehicle: its fixed parameters, the three fields the
    game writes every frame, and the fields the engine derives. *)
Record WheelInfo := mkWheelInfo {
  params : WheelOptions;
  steering : float;
  engineForce : float;
  brake : float;
  suspensionLength : float;
  rotation : float;
  worldTransform : Transform
}.

(** Modelled from the spec: [new WheelInfo(options)] of cannon-es, which is
    not in the repository.  [addWheel] "appends a WheelUnit with the given
    fixed parameters" and the connection point is "fixed at creation": the
    constructor clones the vectors of [options], so the wheel holds the
    values of the moment it is made and a later
    [options.chassisConnectionPointLocal.set(..)] does not reach it.
    Steering, engine force and brake start at 0, as that constructor sets
    them; the derived fields start at 0 and the identity. *)
Definition WheelInfo_new (o : WheelOptions) : WheelInfo :=
  mkWheelInfo o 0 0 0 0 0 Transform_identity.

Definition set_engineForce (v : float) (w : WheelInfo) : WheelInfo :=
  mkWheelInfo (params w) (steering w) v (brake w)
    (suspensionLength w) (rotation w) (worldTransform w).

Definition set_steering (v : float) (w : WheelInfo) : WheelInfo :=
  mkWheelInfo (params w) v (engineForce w) (brake w)
    (suspensionLength w) (rotation w) (worldTransform w).

Definition set_brake (v : float) (w : WheelInfo) : WheelInfo :=
  mkWheelInfo (params w) (steering w) (engineForce w) v
    (suspensionLength w) (rotation w) (worldTransform w).

Definition set_worldTransform (t : Transform) (w : WheelInfo) : WheelInfo :=
  mkWheelInfo (params w) (steering w) (engineForce w) (brake w)
    (suspensionLength w) (rotation w) t.

(** The engine owns the derived fields only: [commit_derived old new] is
    [old] with the suspension length, spin and world transform of [new]. *)
Definition commit_derived (old new : WheelInfo) : WheelInfo :=
  mkWheelInfo (params old) (steering old) (engineForce old) (brake old)
    (suspensionLength new) (rotation new) (worldTransform new).

Record RaycastVehicle := mkRaycastVehicle {
  chassisBody : Body;
  wheelInfos : list WheelInfo;
  indexRightAxis : nat;
  indexUpAxis : nat;
  indexForwardAxis : nat
}.

(** [vehicle.addWheel(options)]: the new wheel goes to the end of
    [wheelInfos], so the order of the calls is the wheel index. *)
Definition addWheel (o : WheelOptions) (v : RaycastVehicle) : RaycastVehicle :=
  mkRaycastVehicle (chassisBody v) (wheelInfos v ++ [WheelInfo_new o])
    (indexRightAxis v) (indexUpAxis v) (indexForwardAxis v).

Definition set_chassisBody (b : Body) (v : RaycastVehicle) : RaycastVehicle :=
  mkRaycastVehicle b (wheelInfos v) (indexRightAxis v) (indexUpAxis v) (indexForwardAxis v).

Definition set_wheelInfos (ws : list WheelInfo) (v : RaycastVehicle) : RaycastVehicle :=
  mkRaycastVehicle (chassisBody v) ws (indexRightAxis v) (indexUpAxis v) (indexForwardAxis v).

(** The world: its gravity.  The ground plane, the broadphase and the
    contact material are set once and only the engine reads them. *)
Record World := mkWorld { gravity : Vec3 }.

(** The rigid-body dynamics, which the repository does not contain.
    [integrate dt elapsed gravity vehicle] is the chassis after
    [world.step(dt, elapsed)]; [resolveWheel .. i w] carries the derived
    fields of wheel [i] after that step; [wheelTransform body w] is the
    pose [updateWheelTransform] computes for a wheel from the chassis pose
    and the wheel's state. *)
Record Engine := mkEngine {
  integrate : float -> float -> Vec3 -> RaycastVehicle -> Body;
  resolveWheel : float -> float -> Vec3 -> RaycastVehicle -> nat -> WheelInfo -> WheelInfo;
  wheelTransform : Body -> WheelInfo -> Transform
}.

End CANNON.

(** ** The game's own state *)

(** [this.inputs]. *)
Module Inputs.
Record t := mk {
  forward : bool;
  backward : bool;
  left : bool;
  right : bool;
  brake : bool
}.

Definition set_forward (b : bool) (i : t) : t :=
  mk b (backward i) (left i) (right i) (brake i).
Definition set_backward (b : bool) (i : t) : t :=
  mk (forward i) b (left i) (right i) (brake i).
Definition set_left (b : bool) (i : t) : t :=
  mk (forward i) (backward i) b (right i) (brake i).
Definition set_right (b : bool) (i : t) : t :=
  mk (forward i) (backward i) (left i) b (brake i).
Definition set_brake (b : bool) (i : t) : t :=
  mk (forward i) (backward i) (left i) (right i) b.
End Inputs.

(** A mesh of the scene: the two fields the frame loop copies into. *)
Record Mesh := mkMesh {
  mesh_position : CANNON.Vec3;
  mesh_quaternion : CANNON.Quaternion
}.

(** [new THREE.Mesh(..)]: at the origin, unrotated. *)
Definition Mesh_new : Mesh := mkMesh CANNON.Vec3_zero CANNON.Quaternion_identity.

Record Game := mkGame {
  world : CANNON.World;
  inputs : Inputs.t;
  vehicle : CANNON.RaycastVehicle;
  chassisMesh : Mesh;
  wheelVisuals : list Mesh
}.

Definition set_inputs (i : Inputs.t) (g : Game) : Game :=
  mkGame (world g) i (vehicle g) (chassisMesh g) (wheelVisuals g).

Definition set_vehicle (v : CANNON.RaycastVehicle) (g : Game) : Game :=
  mkGame (world g) (inputs g) v (chassisMesh g) (wheelVisuals g).

Definition set_chassisMesh (m : Mesh) (g : Game) : Game :=
  mkGame (world g) (inputs g) (vehicle g) m (wheelVisuals g).

Definition set_wheelVisuals (ms : list Mesh) (g : Game) : Game :=
  mkGame (world g) (inputs g) (vehicle g) (chassisMesh g) ms.

(** ** Effects: state, the calls made into the libraries, and [TypeError] *)

(** The calls a frame makes into the physics engine, the renderer and the
    browser, in the order it makes them. *)
Inductive call : Type :=
| RequestAnimationFrame
| ClockGetDelta
| WorldStep (dt timeSinceLastCalled : float)
| ApplyEngineForce (value : float) (wheelIndex : nat)
| SetSteeringValue (value : float) (wheelIndex : nat)
| SetBrake (value : float) (wheelIndex : nat)
| ChassisMeshPositionCopy
| ChassisMeshQuaternionCopy
| UpdateWheelTransform (wheelIndex : nat)
| WheelVisualPositionCopy (wheelIndex : nat)
| WheelVisualQuaternionCopy (wheelIndex : nat)
| CameraPositionLerp
| CameraLookAt
| SpeedInnerText
| RendererRender.

(** Reading a field of [undefined] throws. *)
Inductive exn : Type := TypeError.

Inductive outcome (A : Type) : Type :=
| Ok (a : A) (g : Game) (tr : list call)
| Throw (e : exn) (g : Game) (tr : list call).
Arguments Ok {A} a g tr.
Arguments Throw {A} e g tr.

Definition M (A : Type) : Type := Game -> outcome A.

Definition ret {A} (a : A) : M A := fun g => Ok a g [].

Definition bind {A B} (m : M A) (k : A -> M B) : M B := fun g =>
  match m g with
  | Ok a g1 tr1 =>
      match k a g1 with
      | Ok b g2 tr2 => Ok b g2 (tr1 ++ tr2)
      | Throw e g2 tr2 => Throw e g2 (tr1 ++ tr2)
      end
  | Throw e g1 tr1 => Throw e g1 tr1
  end.

Definition gets {A} (f : Game -> A) : M A := fun g => Ok (f g) g [].
Definition modify (f : Game -> Game) : M unit := fun g => Ok tt (f g) [].
Definition throw {A} (e : exn) : M A := fun g => Throw e g [].
Definition emit (c : call) : M unit := fun g => Ok tt g [c].

Declare Scope game_scope.
Delimit Scope game_scope with game.
Notation "x <- m ;; k" := (bind m (fun x => k))
  (at level 100, m at next level, k at level 200, right associativity, only parsing) : game_scope.
Notation "m ;; k" := (bind m (fun _ => k))
  (at level 100, k at level 200, right associativity, only parsing) : game_scope.
Open Scope game_scope.

(** [for (let i = 0; i < n; i++) body(i)]. *)
Definition forUpTo (n : nat) (body : nat -> M unit) : M unit :=
  foldr (fun i k => body i ;; k) (ret tt) (seq 0 n).

(** The trace and the final state of a computation, whatever its outcome. *)
Definition trace_of {A} (o : outcome A) : list call :=
  match o with Ok _ _ tr => tr | Throw _ _ tr => tr end.

Definition state_of {A} (o : outcome A) : Game :=
  match o with Ok _ g _ => g | Throw _ g _ => g end.

Definition returns {A} (o : outcome A) : bool :=
  match o with Ok _ _ _ => true | Throw _ _ _ => false end.

(** ** The vehicle's methods the game calls *)

(** [this.wheelInfos[wheelIndex].field = value]: a [TypeError] when there
    is no wheel at that index. *)
Definition modifyWheel (f : CANNON.WheelInfo -> CANNON.WheelInfo) (wheelIndex : nat) : M unit :=
  ws <- gets (fun g => CANNON.wheelInfos (vehicle g)) ;;
  match ws !! wheelIndex with
  | Some _ =>
      modify (fun g => set_vehicle (CANNON.set_wheelInfos (alter f wheelIndex ws) (vehicle g)) g)
  | None => throw TypeError
  end.

(** Modelled from the spec: the three setters of cannon-es's
    [RaycastVehicle], which is not in the repository.  Each "sets the
    corresponding mutable field on the WheelUnit at wheelIndex" and fails
    when the index is not below the wheel count. *)
Definition applyEngineForce (value : float) (wheelIndex : nat) : M unit :=
  emit (ApplyEngineForce value wheelIndex) ;;
  modifyWheel (CANNON.set_engineForce value) wheelIndex.

Definition setSteeringValue (value : float) (wheelIndex : nat) : M unit :=
  emit (SetSteeringValue value wheelIndex) ;;
  modifyWheel (CANNON.set_steering value) wheelIndex.

Definition setBrake (value : float) (wheelIndex : nat) : M unit :=
  emit (SetBrake value wheelIndex) ;;
  modifyWheel (CANNON.set_brake value) wheelIndex.

(** Modelled from the spec: [world.step(dt, timeSinceLastCalled)].  The
    step "mutates chassis body velocity/position" and "WheelUnit derived
    fields"; the wheels' parameters and the fields the game sets are left
    as they are. *)
Definition World_step (E : CANNON.Engine) (dt timeSinceLastCalled : float) : M unit :=
  emit (WorldStep dt timeSinceLastCalled) ;;
  modify (fun g =>
    let v := vehicle g in
    let gr := CANNON.gravity (world g) in
    let body' := CANNON.integrate E dt timeSinceLastCalled gr v in
    let wheels' :=
      imap (fun i w =>
              CANNON.commit_derived w (CANNON.resolveWheel E dt timeSinceLastCalled gr v i w))
           (CANNON.wheelInfos v) in
    set_vehicle (CANNON.set_wheelInfos wheels' (CANNON.set_chassisBody body' v)) g).

(** Modelled from the spec: [vehicle.updateWheelTransform(i)] recomputes
    the wheel's [worldTransform] "from chassis pose, connectionPointLocal,
    current suspensionLength .. and accumulated wheel rotation". *)
Definition updateWheelTransform (E : CANNON.Engine) (wheelIndex : nat) : M unit :=
  emit (UpdateWheelTransform wheelIndex) ;;
  body <- gets (fun g => CANNON.chassisBody (vehicle g)) ;;
  modifyWheel (fun w => CANNON.set_worldTransform (CANNON.wheelTransform E body w) w) wheelIndex.

(** ** [class Game] *)

(** The object literal [options] of [initVehicle], before any [set]. *)
Definition options : CANNON.WheelOptions := {|
  CANNON.radius := 0.4;
  CANNON.directionLocal := CANNON.mkVec3 0 (-1) 0;
  CANNON.suspensionStiffness := 30;
  CANNON.suspensionRestLength := 0.3;
  CANNON.frictionSlip := 1.4;
  CANNON.dampingRelaxation := 2.3;
  CANNON.dampingCompression := 4.4;
  CANNON.maxSuspensionForce := 100000;
  CANNON.rollInfluence := 0.01;
  CANNON.axleLocal := CANNON.mkVec3 (-1) 0 0;
  CANNON.chassisConnectionPointLocal := CANNON.mkVec3 1 1 0;
  CANNON.maxSuspensionTravel := 0.3;
  CANNON.customSlidingRotationalSpeed := -30;
  CANNON.useCustomSlidingRotationalSpeed := true
|}.

(** [options.chassisConnectionPointLocal.set(x, y, z)]: the vector of the
    one [options] object is overwritten in place between the calls of
    [addWheel]; each call reads the content of that moment. *)
Definition setConnectionPoint (x y z : float) (o : CANNON.WheelOptions) : CANNON.WheelOptions :=
  CANNON.set_chassisConnectionPointLocal
    (CANNON.Vec3_set (CANNON.chassisConnectionPointLocal o) x y z) o.

(** [initVehicle()]: the chassis, the vehicle with its four wheels, the
    chassis mesh, and one wheel mesh pushed per wheel.  The materials and
    the geometry of the meshes are the renderer's. *)
Definition initVehicle (wheelVisuals0 : list Mesh) : CANNON.RaycastVehicle * Mesh * list Mesh :=
  (* Chassis *)
  let chassisShape := CANNON.mkVec3 1 0.5 2 in
  let chassisBody := CANNON.Body_new 1500 in
  let chassisBody := CANNON.addShape chassisShape chassisBody in
  let chassisBody :=
    CANNON.set_position (CANNON.Vec3_set (CANNON.body_position chassisBody) 0 4 0) chassisBody in
  let chassisBody :=
    CANNON.set_angularVelocity
      (CANNON.Vec3_set (CANNON.angularVelocity chassisBody) 0 0 0.5) chassisBody in
  (* Vehicle *)
  let vehicle := CANNON.mkRaycastVehicle chassisBody [] 0 1 2 in
  let options := options in
  (* Front Left *)
  let options := setConnectionPoint (-1) (-0.4) 1.5 options in
  let vehicle := CANNON.addWheel options vehicle in
  (* Front Right *)
  let options := setConnectionPoint 1 (-0.4) 1.5 options in
  let vehicle := CANNON.addWheel options vehicle in
  (* Rear Left *)
  let options := setConnectionPoint (-1) (-0.4) (-1.5) options in
  let vehicle := CANNON.addWheel options vehicle in
  (* Rear Right *)
  let options := setConnectionPoint 1 (-0.4) (-1.5) options in
  let vehicle := CANNON.addWheel options vehicle in
  (* this.vehicle.addToWorld(this.world): from here on the world's step
     moves the chassis, see World_step *)
  (* Visuals *)
  let chassisMesh := Mesh_new in
  let wheelVisuals :=
    foldl (fun visuals _ => visuals ++ [Mesh_new]) wheelVisuals0 (CANNON.wheelInfos vehicle) in
  (* Contact Material: the engine's *)
  (vehicle, chassisMesh, wheelVisuals).

(** [constructor()], up to its last statement [this.animate()]: the state
    in which the first frame runs.  The scene, the lights and the ground
    ([initLights], [initEnvironment]) are the renderer's and the engine's;
    [initControls] registers the two listeners, [keydown] and [keyup]
    below. *)
Definition Game_new : Game :=
  let world := CANNON.mkWorld (CANNON.Vec3_set CANNON.Vec3_zero 0 (-9.82) 0) in
  let wheelVisuals := [] in
  let inputs := Inputs.mk false false false false false in
  let '(vehicle, chassisMesh, wheelVisuals) := initVehicle wheelVisuals in
  mkGame world inputs vehicle chassisMesh wheelVisuals.

(** [String.prototype.toLowerCase] on the ASCII letters; every key name the
    handlers compare with is ASCII. *)
Definition toLowerCase_ascii (c : ascii) : ascii :=
  let n := nat_of_ascii c in
  if (65 <=? n)%nat && (n <=? 90)%nat then ascii_of_nat (n + 32) else c.

Fixpoint toLowerCase (s : string) : string :=
  match s with
  | EmptyString => EmptyString
  | String c s' => String (toLowerCase_ascii c) (toLowerCase s')
  end.

(** The [switch] shared by the two listeners of [initControls]: [keydown]
    stores [true] in the flag of the key, [keyup] stores [false]. *)
Definition onKey (value : bool) (key : string) : M unit :=
  let k := toLowerCase key in
  if (k =? "w")%string || (k =? "arrowup")%string then
    modify (fun g => set_inputs (Inputs.set_forward value (inputs g)) g)
  else if (k =? "s")%string || (k =? "arrowdown")%string then
    modify (fun g => set_inputs (Inputs.set_backward value (inputs g)) g)
  else if (k =? "a")%string || (k =? "arrowleft")%string then
    modify (fun g => set_inputs (Inputs.set_left value (inputs g)) g)
  else if (k =? "d")%string || (k =? "arrowright")%string then
    modify (fun g => set_inputs (Inputs.set_right value (inputs g)) g)
  else if (k =? " ")%string then
    modify (fun g => set_inputs (Inputs.set_brake value (inputs g)) g)
  else ret tt.

Definition keydown : string -> M unit := onKey true.
Definition keyup : string -> M unit := onKey false.

(** The three constants of [updateVehicle]. *)
Definition engineForce : float := 1500.
Definition maxSteerVal : float := 0.5.
Definition brakeForce : float := 100.

(** [updateVehicle()]. *)
Definition updateVehicle : M unit :=
  i <- gets inputs ;;
  (* Drive *)
  (if Inputs.forward i then
     applyEngineForce (- engineForce) 2 ;;
     applyEngineForce (- engineForce) 3
   else if Inputs.backward i then
     applyEngineForce engineForce 2 ;;
     applyEngineForce engineForce 3
   else
     applyEngineForce 0 2 ;;
     applyEngineForce 0 3) ;;
  (* Steer *)
  (if Inputs.left i then
     setSteeringValue maxSteerVal 0 ;;
     setSteeringValue maxSteerVal 1
   else if Inputs.right i then
     setSteeringValue (- maxSteerVal) 0 ;;
     setSteeringValue (- maxSteerVal) 1
   else
     setSteeringValue 0 0 ;;
     setSteeringValue 0 1) ;;
  (* Brake *)
  (if Inputs.brake i then
     setBrake brakeForce 0 ;;
     setBrake brakeForce 1 ;;
     setBrake brakeForce 2 ;;
     setBrake brakeForce 3
   else
     setBrake 0 0 ;;
     setBrake 0 1 ;;
     setBrake 0 2 ;;
     setBrake 0 3).

(** [this.wheelVisuals[i].position.copy(..)] and [.quaternion.copy(..)]:
    a [TypeError] when there is no mesh at that index. *)
Definition modifyVisual (f : Mesh -> Mesh) (i : nat) : M unit :=
  ms <- gets wheelVisuals ;;
  match ms !! i with
  | Some _ => modify (set_wheelVisuals (alter f i ms))
  | None => throw TypeError
  end.

(** [animate()], one frame; [delta] is what [this.clock.getDelta()]
    returned.  The camera, the speed display and the render call are
    recorded as calls; what they compute stays in the renderer. *)
Definition animate (E : CANNON.Engine) (delta : float) : M unit :=
  emit RequestAnimationFrame ;;
  emit ClockGetDelta ;;
  World_step E (1 / 60) delta ;;
  updateVehicle ;;
  (* Sync visual chassis *)
  body <- gets (fun g => CANNON.chassisBody (vehicle g)) ;;
  emit ChassisMeshPositionCopy ;;
  modify (fun g => set_chassisMesh (mkMesh (CANNON.body_position body) (mesh_quaternion (chassisMesh g))) g) ;;
  emit ChassisMeshQuaternionCopy ;;
  modify (fun g => set_chassisMesh (mkMesh (mesh_position (chassisMesh g)) (CANNON.body_quaternion body)) g) ;;
  (* Sync wheels *)
  n <- gets (fun g => length (CANNON.wheelInfos (vehicle g))) ;;
  forUpTo n (fun i =>
    updateWheelTransform E i ;;
    ws <- gets (fun g => CANNON.wheelInfos (vehicle g)) ;;
    match ws !! i with
    | None => throw TypeError
    | Some w =>
        let t := CANNON.worldTransform w in
        emit (WheelVisualPositionCopy i) ;;
        modifyVisual (fun m => mkMesh (CANNON.position t) (mesh_quaternion m)) i ;;
        emit (WheelVisualQuaternionCopy i) ;;
        modifyVisual (fun m => mkMesh (mesh_position m) (CANNON.quaternion t)) i
    end) ;;
  (* Follow Camera *)
  emit CameraPositionLerp ;;
  emit CameraLookAt ;;
  (* UI Speed *)
  emit SpeedInnerText ;;
  emit RendererRender.

(** What happens to a running game: a key goes down or up, or the browser
    runs the next animation frame ([delta] seconds after the last). *)
Inductive event : Type :=
| KeyDown (key : string)
| KeyUp (key : string)
| AnimationFrame (delta : float).

Definition handle (E : CANNON.Engine) (e : event) : M unit :=
  match e with
  | KeyDown key => keydown key
  | KeyUp key => keyup key
  | AnimationFrame delta => animate E delta
  end.

(** The game's life: the events in the order they arrive. *)
Fixpoint run (E : CANNON.Engine) (es : list event) : M unit :=
  match es with
  | [] => ret tt
  | e :: es' => handle E e ;; run E es'
  end.

(** ** Observations on states and traces *)

(** The state the game is in between frames: four wheels, four meshes. *)
Definition rigged (g : Game) : Prop :=
  length (CANNON.wheelInfos (vehicle g)) = 4 /\ length (wheelVisuals g) = 4.

Definition wheelAt (g : Game) (i : nat) : option CANNON.WheelInfo :=
  CANNON.wheelInfos (vehicle g) !! i.

Definition engineForceAt (g : Game) (i : nat) : option float :=
  CANNON.engineForce <$> wheelAt g i.

Definition steeringAt (g : Game) (i : nat) : option float :=
  CANNON.steering <$> wheelAt g i.

Definition brakeAt (g : Game) (i : nat) : option float :=
  CANNON.brake <$> wheelAt g i.

(** The three fields the mapper writes, wheel by wheel. *)
Definition intents (g : Game) : list (float * float * float) :=
  (fun w => (CANNON.engineForce w, CANNON.steering w, CANNON.brake w))
    <$> CANNON.wheelInfos (vehicle g).

Definition is_engine_call (c : call) : bool :=
  match c with ApplyEngineForce _ _ => true | _ => false end.

Definition is_steer_call (c : call) : bool :=
  match c with SetSteeringValue _ _ => true | _ => false end.

Definition is_brake_call (c : call) : bool :=
  match c with SetBrake _ _ => true | _ => false end.

Definition is_mapper_call (c : call) : bool :=
  is_engine_call c || is_steer_call c || is_brake_call c.

Definition is_step_call (c : call) : bool :=
  match c with WorldStep _ _ => true | _ => false end.

(** The wheel index a mapper call addresses is one the mapper may use:
    the rear pair for the engine, the front pair for steering. *)
Definition drives_rear_steers_front (c : call) : bool :=
  match c with
  | ApplyEngineForce _ i => (i =? 2)%nat || (i =? 3)%nat
  | SetSteeringValue _ i => (i =? 0)%nat || (i =? 1)%nat
  | _ => true
  end.

(** The calls that sync wheel [i]: recompute, then copy. *)
Definition wheelSync (i : nat) : list call :=
  [UpdateWheelTransform i; WheelVisualPositionCopy i; WheelVisualQuaternionCopy i].

(** A stand-in engine under which the chassis never moves: a wheel sits at
    its mount point, carried along by the chassis position.  It serves to
    run the game on concrete inputs. *)
Definition still : CANNON.Engine := {|
  CANNON.integrate := fun _ _ _ v => CANNON.chassisBody v;
  CANNON.resolveWheel := fun _ _ _ _ _ w => w;
  CANNON.wheelTransform := fun b w =>
    let p := CANNON.body_position b in
    let c := CANNON.chassisConnectionPointLocal (CANNON.params w) in
    CANNON.mkTransform
      (CANNON.mkVec3 (CANNON.x p + CANNON.x c) (CANNON.y p + CANNON.y c) (CANNON.z p + CANNON.z c))
      (CANNON.body_quaternion b)
|}.

(** The five flags, for stating inputs. *)
Definition held (forward backward left right brake : bool) : Inputs.t :=
  Inputs.mk forward backward left right brake.

(** What the mapper never writes stays as the wheels were made: no engine
    force on the front pair, no steering on the rear pair. *)
Definition front_undriven_rear_unsteered (g : Game) : Prop :=
  engineForceAt g 0 = Some 0%float /\ engineForceAt g 1 = Some 0%float /\
  steeringAt g 2 = Some 0%float /\ steeringAt g 3 = Some 0%float.

(** The names the two keyboard listeners compare with. *)
Definition bound_keys : list string :=
  ["w"; "arrowup"; "s"; "arrowdown"; "a"; "arrowleft"; "d"; "arrowright"; " "].

(** The body of the wheel loop of [animate], for wheel [i]. *)
Definition syncWheel (E : CANNON.Engine) (i : nat) : M unit :=
  updateWheelTransform E i ;;
  ws <- gets (fun g => CANNON.wheelInfos (vehicle g)) ;;
  match ws !! i with
  | None => throw TypeError
  | Some w =>
      let t := CANNON.worldTransform w in
      emit (WheelVisualPositionCopy i) ;;
      modifyVisual (fun m => mkMesh (CANNON.position t) (mesh_quaternion m)) i ;;
      emit (WheelVisualQuaternionCopy i) ;;
      modifyVisual (fun m => mkMesh (mesh_position m) (CANNON.quaternion t)) i
  end.

(** The flags with only the drive pair, the steer pair or the brake kept. *)
Definition driveOnly (i : Inputs.t) : Inputs.t :=
  held (Inputs.forward i) (Inputs.backward i) false false false.
Definition steerOnly (i : Inputs.t) : Inputs.t :=
  held false false (Inputs.left i) (Inputs.right i) false.
Definition brakeOnly (i : Inputs.t) : Inputs.t :=
  held false false false false (Inputs.brake i).

(** The events of the keyboard, as opposed to the frames. *)
Definition is_key_event (e : event) : bool :=
  match e with AnimationFrame _ => false | _ => true end.

(** ** Basic facts *)

Lemma rigged_explicit g :
  rigged g ->
  exists wd i b w0 w1 w2 w3 r u f cm m0 m1 m2 m3,
    g = mkGame wd i (CANNON.mkRaycastVehicle b [w0; w1; w2; w3] r u f) cm [m0; m1; m2; m3].
Proof.
  destruct g as [wd i [b ws r u f] cm ms]; unfold rigged; simpl.
  intros [Hw Hm].
  destruct ws as [|w0 [|w1 [|w2 [|w3 [|? ?]]]]]; try discriminate Hw.
  destruct ms as [|m0 [|m1 [|m2 [|m3 [|? ?]]]]]; try discriminate Hm.
  repeat eexists.
Qed.

(** Replace a rigged state by its explicit form and split the flags. *)
Ltac explode g H :=
  let wd := fresh "wd" in let i := fresh "i" in
  destruct (rigged_explicit g H)
    as (wd & i & ?b & ?w0 & ?w1 & ?w2 & ?w3 & ?r & ?u & ?f & ?cm & ?m0 & ?m1 & ?m2 & ?m3 & ->);
  destruct i as [[] [] [] [] []].

Lemma Game_new_rigged : rigged Game_new.
Proof. split; reflexivity. Qed.

Lemma set_inputs_rigged i g : rigged g -> rigged (set_inputs i g).
Proof. intros H; exact H. Qed.

Lemma float_neq (a b : float) : PrimFloat.eqb a b = false -> PrimFloat.eqb a a = true -> a <> b.
Proof. intros Hab Haa ->. rewrite Haa in Hab. discriminate. Qed.

(** Decide a closed equation by evaluation. *)
Ltac crunch := vm_compute; reflexivity.

(** Split a goal into its conjuncts, and no further. *)
Ltac conjs := unfold rigged; repeat match goal with |- _ /\ _ => split end.

(** A setter reaches the wheel at its index when there is one, and throws
    when the index is not below the wheel count. *)
Lemma modifyWheel_in_range f i g :
  i < length (CANNON.wheelInfos (vehicle g)) ->
  modifyWheel f i g
    = Ok tt (set_vehicle
               (CANNON.set_wheelInfos (alter f i (CANNON.wheelInfos (vehicle g))) (vehicle g)) g)
         [].
Proof.
  intros Hi. apply lookup_lt_is_Some in Hi as [w Hw].
  unfold modifyWheel, bind, gets. cbn. rewrite Hw. reflexivity.
Qed.

Lemma modifyWheel_out_of_range f i g :
  length (CANNON.wheelInfos (vehicle g)) <= i ->
  modifyWheel f i g = Throw TypeError g [].
Proof.
  intros Hi. apply lookup_ge_None in Hi.
  unfold modifyWheel, bind, gets. cbn. rewrite Hi. reflexivity.
Qed.

(** The step of the world keeps every wheel's engine force, steering and
    brake, and the number of wheels. *)
Lemma World_step_intents E dt elapsed g :
  intents (state_of (World_step E dt elapsed g)) = intents g.
Proof.
  unfold intents, World_step, bind, emit, modify. cbn.
  apply list_eq; intros i.
  rewrite !list_lookup_fmap, list_lookup_imap.
  destruct (CANNON.wheelInfos (vehicle g) !! i); reflexivity.
Qed.

(** ** The Input-to-Force Mapper, [updateVehicle] *)

(** The mapper never throws on a rigged state, leaves it rigged, and
    touches neither the inputs, the chassis nor the meshes. *)
Lemma updateVehicle_returns g :
  rigged g ->
  exists g' tr,
    updateVehicle g = Ok tt g' tr /\ rigged g' /\ inputs g' = inputs g /\
    CANNON.chassisBody (vehicle g') = CANNON.chassisBody (vehicle g) /\
    wheelVisuals g' = wheelVisuals g.
Proof.
  intros H; explode g H; do 2 eexists; (split; [crunch|]);
    conjs; crunch.
Qed.

(** C1, as the code has it: when forward and backward are both held, the
    update applies [-engineForce] (-1500) to wheels 2 and 3, with the very
    calls and result of forward alone; when left and right are both held
    it sets [+maxSteerVal] on wheels 0 and 1, as for left alone.  The
    earlier branch of each [if] chain wins. *)
Theorem updateVehicle_conflict_priority g :
  rigged g ->
  exists g' tr,
    updateVehicle g = Ok tt g' tr /\
    (Inputs.forward (inputs g) = true -> Inputs.backward (inputs g) = true ->
       List.filter is_engine_call tr
         = [ApplyEngineForce (- engineForce) 2; ApplyEngineForce (- engineForce) 3] /\
       engineForceAt g' 2 = Some (-1500)%float /\
       engineForceAt g' 3 = Some (-1500)%float /\
       trace_of (updateVehicle (set_inputs (Inputs.set_backward false (inputs g)) g)) = tr /\
       intents (state_of (updateVehicle (set_inputs (Inputs.set_backward false (inputs g)) g)))
         = intents g') /\
    (Inputs.left (inputs g) = true -> Inputs.right (inputs g) = true ->
       List.filter is_steer_call tr
         = [SetSteeringValue maxSteerVal 0; SetSteeringValue maxSteerVal 1] /\
       steeringAt g' 0 = Some 0.5%float /\
       steeringAt g' 1 = Some 0.5%float /\
       trace_of (updateVehicle (set_inputs (Inputs.set_right false (inputs g)) g)) = tr /\
       intents (state_of (updateVehicle (set_inputs (Inputs.set_right false (inputs g)) g)))
         = intents g').
Proof.
  intros H; explode g H; do 2 eexists; (split; [crunch|]);
    split; cbn [inputs Inputs.forward Inputs.backward Inputs.left Inputs.right];
    intros; try discriminate; conjs; crunch.
Qed.

Lemma updateVehicle_conflict_priority_witness :
  let g := set_inputs (held true true true true false) Game_new in
  rigged g /\
  exists g' tr,
    updateVehicle g = Ok tt g' tr /\
    engineForceAt g' 2 = Some (-1500)%float /\ steeringAt g' 0 = Some 0.5%float.
Proof.
  intros g. split; [exact Game_new_rigged|].
  destruct (updateVehicle_conflict_priority g Game_new_rigged)
    as (g' & tr & Hrun & Hdrive & Hsteer).
  exists g', tr. split; [exact Hrun|].
  split; [apply Hdrive | apply Hsteer]; reflexivity.
Defined.

(** C1 as stated fails: with forward and backward both held, wheel 2 gets
    the engine force -1500, not 0, and the calls differ from those made
    when neither is held; with left and right both held, wheel 0 is
    steered to 0.5, not 0. *)
Lemma updateVehicle_conflict_not_zero :
  let both := updateVehicle (set_inputs (held true true true true false) Game_new) in
  let neither := updateVehicle (set_inputs (held false false false false false) Game_new) in
  returns both = true /\
  engineForceAt (state_of both) 2 = Some (-1500)%float /\
  engineForceAt (state_of neither) 2 = Some 0%float /\
  PrimFloat.eqb (-1500) 0 = false /\
  steeringAt (state_of both) 0 = Some 0.5%float /\
  steeringAt (state_of neither) 0 = Some 0%float /\
  PrimFloat.eqb 0.5 0 = false /\
  List.filter is_engine_call (trace_of both)
    = [ApplyEngineForce (-1500) 2; ApplyEngineForce (-1500) 3] /\
  List.filter is_engine_call (trace_of neither)
    = [ApplyEngineForce 0 2; ApplyEngineForce 0 3].
Proof. vm_compute. conjs; reflexivity. Qed.

(** C5: the steering policy.  Left without right steers wheels 0 and 1 to
    [+maxSteerVal], right without left to [-maxSteerVal], neither to 0;
    and whatever the flags, after the update the steering of each front
    wheel lies between [-maxSteerVal] and [+maxSteerVal], which is 0.5. *)
Theorem updateVehicle_steering_policy g :
  rigged g ->
  exists g' tr,
    updateVehicle g = Ok tt g' tr /\
    (Inputs.left (inputs g) = true -> Inputs.right (inputs g) = false ->
       List.filter is_steer_call tr
         = [SetSteeringValue maxSteerVal 0; SetSteeringValue maxSteerVal 1] /\
       steeringAt g' 0 = Some maxSteerVal /\ steeringAt g' 1 = Some maxSteerVal) /\
    (Inputs.right (inputs g) = true -> Inputs.left (inputs g) = false ->
       List.filter is_steer_call tr
         = [SetSteeringValue (- maxSteerVal) 0; SetSteeringValue (- maxSteerVal) 1] /\
       steeringAt g' 0 = Some (- maxSteerVal)%float /\
       steeringAt g' 1 = Some (- maxSteerVal)%float) /\
    (Inputs.left (inputs g) = false -> Inputs.right (inputs g) = false ->
       List.filter is_steer_call tr = [SetSteeringValue 0 0; SetSteeringValue 0 1] /\
       steeringAt g' 0 = Some 0%float /\ steeringAt g' 1 = Some 0%float) /\
    (forall i, i < 2 ->
       exists s, steeringAt g' i = Some s /\
         (- maxSteerVal <=? s)%float = true /\ (s <=? maxSteerVal)%float = true) /\
    maxSteerVal = 0.5%float.
Proof.
  intros H; explode g H; do 2 eexists; (split; [crunch|]);
    cbn [inputs Inputs.left Inputs.right];
    do 3 (split; [intros; try discriminate; conjs; crunch|]);
    (split; [|crunch]);
    intros [|[|k]] Hk; try lia; eexists; conjs; crunch.
Qed.

Lemma updateVehicle_steering_policy_witness :
  let g := set_inputs (held false false false true false) Game_new in
  rigged g /\
  exists g' tr,
    updateVehicle g = Ok tt g' tr /\
    steeringAt g' 0 = Some (-0.5)%float /\ steeringAt g' 1 = Some (-0.5)%float.
Proof.
  intros g. split; [exact Game_new_rigged|].
  destruct (updateVehicle_steering_policy g Game_new_rigged)
    as (g' & tr & Hrun & _ & Hright & _).
  exists g', tr. split; [exact Hrun|].
  destruct Hright as (_ & H0 & H1); [reflexivity | reflexivity |].
  split; [exact H0 | exact H1].
Defined.

(** C6: the brake policy.  With the brake flag set the update calls
    [setBrake(brakeForce, i)] for i = 0, 1, 2, 3, with it clear
    [setBrake(0, i)]; every wheel's brake then holds exactly that value,
    whatever it held before; [brakeForce] is 100. *)
Theorem updateVehicle_brake_policy g :
  rigged g ->
  let target : float := if Inputs.brake (inputs g) then brakeForce else 0%float in
  exists g' tr,
    updateVehicle g = Ok tt g' tr /\
    List.filter is_brake_call tr
      = [SetBrake target 0; SetBrake target 1; SetBrake target 2; SetBrake target 3] /\
    (forall i, i < 4 -> brakeAt g' i = Some target) /\
    brakeForce = 100%float.
Proof.
  intros H; explode g H; do 2 eexists; (split; [crunch|]);
    (split; [crunch|]); (split; [|crunch]);
    intros [|[|[|[|k]]]] Hk; try lia; crunch.
Qed.

Lemma updateVehicle_brake_policy_witness :
  let g := set_inputs (held false false false false true) Game_new in
  rigged g /\
  exists g' tr,
    updateVehicle g = Ok tt g' tr /\
    List.filter is_brake_call tr
      = [SetBrake 100 0; SetBrake 100 1; SetBrake 100 2; SetBrake 100 3] /\
    brakeAt g' 3 = Some 100%float.
Proof.
  intros g. split; [exact Game_new_rigged|].
  destruct (updateVehicle_brake_policy g Game_new_rigged)
    as (g' & tr & Hrun & Hcalls & Hfield & _).
  exists g', tr. split; [exact Hrun|].
  split; [exact Hcalls | apply Hfield; lia].
Defined.

(** ** One frame, [animate] *)

(** C2, as the code has it: in every frame [updateVehicle] runs exactly
    once, and it runs after the physics step of that frame.  The step
    works with the engine, steering and brake values as they stood when
    the frame began; the values the mapper writes from the current flags
    stand at the end of the frame, for the next frame's step. *)
Theorem animate_steps_then_maps E delta g :
  rigged g ->
  exists g1 g2 tr_u post g',
    World_step E (1 / 60) delta g = Ok tt g1 [WorldStep (1 / 60) delta] /\
    updateVehicle g1 = Ok tt g2 tr_u /\
    inputs g1 = inputs g /\
    animate E delta g
      = Ok tt g'
          ([RequestAnimationFrame; ClockGetDelta; WorldStep (1 / 60) delta] ++ tr_u ++ post) /\
    forallb is_mapper_call tr_u = true /\
    forallb (fun c => negb (is_mapper_call c) && negb (is_step_call c)) post = true /\
    intents g1 = intents g /\
    intents g' = intents g2.
Proof.
  intros H; explode g H; do 5 eexists; conjs; crunch.
Qed.

Lemma animate_steps_then_maps_witness :
  let g := set_inputs (held true false false false false) Game_new in
  rigged g /\
  exists g1 g2 tr_u post g',
    World_step still (1 / 60) 0 g = Ok tt g1 [WorldStep (1 / 60) 0] /\
    updateVehicle g1 = Ok tt g2 tr_u /\
    animate still 0 g
      = Ok tt g'
          ([RequestAnimationFrame; ClockGetDelta; WorldStep (1 / 60) 0] ++ tr_u ++ post) /\
    intents g1 = intents g /\ intents g' = intents g2.
Proof.
  intros g. split; [exact Game_new_rigged|].
  destruct (animate_steps_then_maps still 0 g Game_new_rigged)
    as (g1 & g2 & tr_u & post & g' & Hstep & Hmap & _ & Hframe & _ & _ & Hbefore & Hafter).
  exists g1, g2, tr_u, post, g'. conjs; assumption.
Defined.

(** C2 as stated fails: in the first frame with W held, the physics step
    is the third call and the mapper's first call comes after it; the step
    runs while wheel 2 still carries the engine force 0, and the -1500 for
    the held key is written only afterwards. *)
Lemma first_frame_steps_before_mapping :
  let g := state_of (keydown "w" Game_new) in
  let o := animate still 0 g in
  Inputs.forward (inputs g) = true /\
  returns o = true /\
  take 4 (trace_of o)
    = [RequestAnimationFrame; ClockGetDelta; WorldStep (1 / 60) 0;
       ApplyEngineForce (-1500) 2] /\
  engineForceAt (state_of (World_step still (1 / 60) 0 g)) 2 = Some 0%float /\
  engineForceAt (state_of o) 2 = Some (-1500)%float /\
  PrimFloat.eqb (-1500) 0 = false.
Proof. vm_compute. conjs; reflexivity. Qed.

(** C3: in every frame and for every wheel index 0..3, the wheel's world
    transform is recomputed by [updateWheelTransform] after that frame's
    physics step and right before it is copied to the wheel's mesh.  The
    transform is computed from the chassis as the step left it and from
    the wheel with the suspension length the step gave it, and the mesh
    ends the frame with that pose. *)
Theorem animate_wheel_transform_fresh E delta g :
  rigged g ->
  let gr := CANNON.gravity (world g) in
  let body' := CANNON.integrate E (1 / 60) delta gr (vehicle g) in
  let tr_u := trace_of (updateVehicle (state_of (World_step E (1 / 60) delta g))) in
  exists g',
    animate E delta g
      = Ok tt g'
          ([RequestAnimationFrame; ClockGetDelta; WorldStep (1 / 60) delta] ++ tr_u
           ++ [ChassisMeshPositionCopy; ChassisMeshQuaternionCopy]
           ++ concat (wheelSync <$> seq 0 4)
           ++ [CameraPositionLerp; CameraLookAt; SpeedInnerText; RendererRender]) /\
    forallb is_mapper_call tr_u = true /\
    CANNON.chassisBody (vehicle g') = body' /\
    forall i, i < 4 ->
      exists w0 w1 w m,
        wheelAt g i = Some w0 /\
        wheelAt (state_of (updateVehicle (state_of (World_step E (1 / 60) delta g)))) i
          = Some w1 /\
        CANNON.suspensionLength w1
          = CANNON.suspensionLength (CANNON.resolveWheel E (1 / 60) delta gr (vehicle g) i w0) /\
        wheelAt g' i = Some w /\
        CANNON.worldTransform w = CANNON.wheelTransform E body' w1 /\
        CANNON.suspensionLength w = CANNON.suspensionLength w1 /\
        CANNON.steering w = CANNON.steering w1 /\
        wheelVisuals g' !! i = Some m /\
        mesh_position m = CANNON.position (CANNON.worldTransform w) /\
        mesh_quaternion m = CANNON.quaternion (CANNON.worldTransform w).
Proof.
  intros H; cbv zeta; explode g H; eexists; (split; [crunch|]);
    (split; [crunch|]); (split; [crunch|]);
    intros [|[|[|[|k]]]] Hk; try lia; do 4 eexists; conjs; crunch.
Qed.

Lemma animate_wheel_transform_fresh_witness :
  rigged Game_new /\
  exists g' w m,
    returns (animate still 0 Game_new) = true /\
    state_of (animate still 0 Game_new) = g' /\
    wheelAt g' 2 = Some w /\
    wheelVisuals g' !! 2 = Some m /\
    mesh_position m = CANNON.position (CANNON.worldTransform w) /\
    mesh_quaternion m = CANNON.quaternion (CANNON.worldTransform w).
Proof.
  split; [exact Game_new_rigged|].
  destruct (animate_wheel_transform_fresh still 0 Game_new Game_new_rigged)
    as (g' & Hframe & _ & _ & Hwheels).
  destruct (Hwheels 2 ltac:(lia))
    as (w0 & w1 & w & m & _ & _ & _ & Hw & _ & _ & _ & Hm & Hpos & Hquat).
  exists g', w, m. rewrite Hframe. cbn [state_of returns].
  conjs; first [reflexivity | assumption].
Defined.

(** C8, as the code has it: the frame hands the clock's [delta] to
    [world.step] unchanged, as its second argument, whatever its value;
    nothing clamps it.  The first argument, the timestep, is the constant
    1/60, positive and finite whatever [delta] is, and no [delta] makes
    the frame throw. *)
Theorem animate_passes_delta_unclamped E delta g :
  rigged g ->
  exists g' tr,
    animate E delta g = Ok tt g' tr /\
    List.filter is_step_call tr = [WorldStep (1 / 60) delta] /\
    (0 <? 1 / 60)%float = true /\
    PrimFloat.is_finite (1 / 60) = true.
Proof.
  intros H; explode g H; do 2 eexists; conjs; crunch.
Qed.

Lemma animate_passes_delta_unclamped_witness :
  rigged Game_new /\
  exists g' tr,
    animate still PrimFloat.nan Game_new = Ok tt g' tr /\
    List.filter is_step_call tr = [WorldStep (1 / 60) PrimFloat.nan].
Proof.
  split; [exact Game_new_rigged|].
  destruct (animate_passes_delta_unclamped still PrimFloat.nan Game_new Game_new_rigged)
    as (g' & tr & Hframe & Hstep & _).
  exists g', tr. split; assumption.
Defined.

(** C8 as stated fails: the clock's first reading is 0, and the first
    frame passes that 0 on to [world.step]; the value is not positive, no
    minimum was put in its place. *)
Lemma first_frame_passes_zero_delta :
  let o := animate still 0 Game_new in
  returns o = true /\
  List.filter is_step_call (trace_of o) = [WorldStep (1 / 60) 0] /\
  (0 <? 0)%float = false.
Proof. vm_compute. conjs; reflexivity. Qed.

(** ** The whole run *)

Lemma onKey_inputs_only value key g :
  exists i, onKey value key g = Ok tt (set_inputs i g) [].
Proof.
  destruct g; unfold onKey.
  repeat match goal with
         | |- context [if ?c then _ else _] => destruct c
         end; eexists; reflexivity.
Qed.

(** A frame keeps the game rigged and leaves the fields the mapper never
    writes at 0; the wheel indices of its calls are the mapper's. *)
Lemma animate_keeps_unused E delta g :
  rigged g -> front_undriven_rear_unsteered g ->
  exists g' tr,
    animate E delta g = Ok tt g' tr /\
    rigged g' /\ front_undriven_rear_unsteered g' /\
    forallb drives_rear_steers_front tr = true.
Proof.
  intros H (Ha & Hb & Hc & Hd); explode g H;
    destruct w0, w1, w2, w3; vm_compute in Ha, Hb, Hc, Hd;
    injection Ha as ->; injection Hb as ->; injection Hc as ->; injection Hd as ->;
    do 2 eexists; (split; [crunch|]); unfold front_undriven_rear_unsteered;
    conjs; crunch.
Qed.

Lemma handle_keeps_unused E e g :
  rigged g -> front_undriven_rear_unsteered g ->
  exists g' tr,
    handle E e g = Ok tt g' tr /\
    rigged g' /\ front_undriven_rear_unsteered g' /\
    forallb drives_rear_steers_front tr = true.
Proof.
  intros H Hu. destruct e as [key|key|delta]; cbn [handle].
  - destruct (onKey_inputs_only true key g) as [i Hi].
    exists (set_inputs i g), []. unfold keydown. rewrite Hi. auto.
  - destruct (onKey_inputs_only false key g) as [i Hi].
    exists (set_inputs i g), []. unfold keyup. rewrite Hi. auto.
  - apply animate_keeps_unused; assumption.
Qed.

Lemma run_keeps_unused E es :
  forall g,
    rigged g -> front_undriven_rear_unsteered g ->
    exists g' tr,
      run E es g = Ok tt g' tr /\
      rigged g' /\ front_undriven_rear_unsteered g' /\
      forallb drives_rear_steers_front tr = true.
Proof.
  induction es as [|e es IH]; intros g H Hu.
  - exists g, []. auto.
  - destruct (handle_keeps_unused E e g H Hu) as (g1 & tr1 & Hrun1 & H1 & Hu1 & Htr1).
    destruct (IH g1 H1 Hu1) as (g2 & tr2 & Hrun2 & H2 & Hu2 & Htr2).
    exists g2, (tr1 ++ tr2). cbn [run]. unfold bind. rewrite Hrun1, Hrun2.
    rewrite forallb_app, Htr1, Htr2. auto.
Qed.

Lemma Game_new_unused : front_undriven_rear_unsteered Game_new.
Proof. unfold front_undriven_rear_unsteered; conjs; crunch. Qed.

(** C9: over the whole life of the game (any keys and frames, in any
    order, from the constructed state) the run never throws, every
    [applyEngineForce] goes to wheel 2 or 3 and every [setSteeringValue] to
    wheel 0 or 1, and at every moment the engine force of wheels 0 and 1
    and the steering of wheels 2 and 3 are 0. *)
Theorem run_front_undriven_rear_unsteered E es :
  exists g tr,
    run E es Game_new = Ok tt g tr /\
    forallb drives_rear_steers_front tr = true /\
    engineForceAt g 0 = Some 0%float /\ engineForceAt g 1 = Some 0%float /\
    steeringAt g 2 = Some 0%float /\ steeringAt g 3 = Some 0%float.
Proof.
  destruct (run_keeps_unused E es Game_new Game_new_rigged Game_new_unused)
    as (g & tr & Hrun & _ & Hu & Htr).
  exists g, tr. split; [exact Hrun|]. split; [exact Htr|]. exact Hu.
Qed.

(** ** The constructed vehicle *)

(** C7: the constructor leaves a chassis of mass 1500 at height 4 under the
    gravity (0, -9.82, 0), and exactly four wheels, in the order front
    left, front right, rear left, rear right, at the mount points
    (-1, -0.4, 1.5), (1, -0.4, 1.5), (-1, -0.4, -1.5), (1, -0.4, -1.5);
    with x the right axis and z the forward axis, wheels 0 and 1 are the
    front pair, which the mapper steers, and wheels 2 and 3 the rear pair,
    which it drives. *)
Theorem Game_new_configuration :
  let v := vehicle Game_new in
  let mount i := CANNON.chassisConnectionPointLocal <$> (CANNON.params <$> wheelAt Game_new i) in
  CANNON.mass (CANNON.chassisBody v) = 1500%float /\
  CANNON.body_position (CANNON.chassisBody v) = CANNON.mkVec3 0 4 0 /\
  CANNON.gravity (world Game_new) = CANNON.mkVec3 0 (-9.82) 0 /\
  length (CANNON.wheelInfos v) = 4 /\
  mount 0 = Some (CANNON.mkVec3 (-1) (-0.4) 1.5) /\
  mount 1 = Some (CANNON.mkVec3 1 (-0.4) 1.5) /\
  mount 2 = Some (CANNON.mkVec3 (-1) (-0.4) (-1.5)) /\
  mount 3 = Some (CANNON.mkVec3 1 (-0.4) (-1.5)) /\
  CANNON.indexRightAxis v = 0 /\ CANNON.indexForwardAxis v = 2 /\
  (forall i p, i < 2 -> mount i = Some p ->
     (0 <? CANNON.Vec3_component (CANNON.indexForwardAxis v) p)%float = true) /\
  (forall i p, 2 <= i < 4 -> mount i = Some p ->
     (CANNON.Vec3_component (CANNON.indexForwardAxis v) p <? 0)%float = true) /\
  (forall i, exists s e,
     let tr := trace_of (updateVehicle (set_inputs i Game_new)) in
     List.filter is_steer_call tr = [SetSteeringValue s 0; SetSteeringValue s 1] /\
     List.filter is_engine_call tr = [ApplyEngineForce e 2; ApplyEngineForce e 3]).
Proof.
  cbv zeta. do 10 (split; [crunch|]). split; [|split].
  - intros [|[|k]] p Hk; try lia; vm_compute; intros [= <-]; reflexivity.
  - intros [|[|[|[|k]]]] p Hk; try lia; vm_compute; intros [= <-]; reflexivity.
  - intros [[] [] [] [] []]; do 2 eexists; cbv zeta; split; crunch.
Qed.

(** C10: the chassis is made with the angular velocity (0, 0, 0.5), a spin
    about the forward (roll) axis, so it is not at rest although no flag
    is set; this is the body the first frame hands to the physics step. *)
Theorem Game_new_chassis_spins :
  let v := vehicle Game_new in
  let body := CANNON.chassisBody v in
  CANNON.angularVelocity body = CANNON.mkVec3 0 0 0.5 /\
  CANNON.Vec3_component (CANNON.indexForwardAxis v) (CANNON.angularVelocity body) = 0.5%float /\
  CANNON.angularVelocity body <> CANNON.Vec3_zero /\
  inputs Game_new = held false false false false false /\
  forall E delta,
    CANNON.chassisBody (vehicle (state_of (animate E delta Game_new)))
      = CANNON.integrate E (1 / 60) delta (CANNON.gravity (world Game_new)) v.
Proof.
  cbv zeta. do 2 (split; [crunch|]). split; [|split; [crunch|]].
  - intros Heq. apply (f_equal CANNON.z) in Heq. vm_compute in Heq.
    revert Heq. apply float_neq; crunch.
  - intros E delta. crunch.
Qed.

(** * Further properties of the code *)


(** ** The keyboard listeners *)

Lemma toLowerCase_ascii_idemp c : toLowerCase_ascii (toLowerCase_ascii c) = toLowerCase_ascii c.
Proof. destruct c as [[] [] [] [] [] [] [] []]; vm_compute; reflexivity. Qed.

Lemma toLowerCase_idemp s : toLowerCase (toLowerCase s) = toLowerCase s.
Proof.
  induction s as [|c s IH]; cbn [toLowerCase]; [reflexivity|].
  rewrite toLowerCase_ascii_idemp, IH. reflexivity.
Qed.

(** X1: the listeners lower-case the key before comparing, so a key acts
    the same in any letter case: W as w, ARROWUP as ArrowUp. *)
Theorem onKey_ignores_case value key :
  onKey value (toLowerCase key) = onKey value key.
Proof. unfold onKey. rewrite toLowerCase_idemp. reflexivity. Qed.

(** X2: a key that is none of the nine bound names changes nothing: same
    state, no call, no error. *)
Theorem onKey_unbound value key g :
  toLowerCase key ∉ bound_keys ->
  onKey value key g = Ok tt g [].
Proof.
  unfold bound_keys. rewrite !not_elem_of_cons.
  intros (H1 & H2 & H3 & H4 & H5 & H6 & H7 & H8 & H9 & _).
  unfold onKey.
  rewrite (proj2 (String.eqb_neq _ _) H1), (proj2 (String.eqb_neq _ _) H2),
    (proj2 (String.eqb_neq _ _) H3), (proj2 (String.eqb_neq _ _) H4),
    (proj2 (String.eqb_neq _ _) H5), (proj2 (String.eqb_neq _ _) H6),
    (proj2 (String.eqb_neq _ _) H7), (proj2 (String.eqb_neq _ _) H8),
    (proj2 (String.eqb_neq _ _) H9).
  reflexivity.
Qed.

Lemma onKey_unbound_witness :
  (toLowerCase "Enter" ∉ bound_keys) /\ onKey true "Enter" Game_new = Ok tt Game_new [].
Proof.
  assert (H : toLowerCase "Enter" ∉ bound_keys).
  { unfold bound_keys. rewrite !not_elem_of_cons. repeat split; try discriminate.
    apply not_elem_of_nil. }
  split; [exact H | exact (onKey_unbound true "Enter" Game_new H)].
Defined.

(** X3: a key event never throws, makes no call, leaves the vehicle, the
    world and the meshes alone, and changes at most one flag, storing in
    it [true] for a press and [false] for a release. *)
Theorem onKey_one_flag value key g :
  exists i',
    onKey value key g = Ok tt (set_inputs i' g) [] /\
    (i' = inputs g \/
     i' = Inputs.set_forward value (inputs g) \/
     i' = Inputs.set_backward value (inputs g) \/
     i' = Inputs.set_left value (inputs g) \/
     i' = Inputs.set_right value (inputs g) \/
     i' = Inputs.set_brake value (inputs g)).
Proof.
  destruct g as [wd i v cm ms]; unfold onKey.
  repeat match goal with
         | |- context [if ?c then _ else _] => destruct c
         end; eexists; (split; [reflexivity|]); cbn [inputs]; tauto.
Qed.

(** X4: a press followed by the release of the same key leaves the state
    the release alone would leave: the key's flag ends cleared, whatever
    it was.  Repeating a press (key auto-repeat) or a release changes
    nothing. *)
Theorem keydown_keyup key g :
  (keydown key ;; keyup key) g = Ok tt (state_of (keyup key g)) [] /\
  (keydown key ;; keydown key) g = keydown key g /\
  (keyup key ;; keyup key) g = keyup key g.
Proof.
  destruct g as [wd [] v cm ms]; unfold keydown, keyup, onKey, bind.
  repeat match goal with
         | |- context [if ?c then _ else _] => destruct c
         end; repeat split; reflexivity.
Qed.


(** ** The mapper on any vehicle *)

(** Split a state by its number of wheels (none to three, or four and
    more) and by its flags. *)
Ltac shape g :=
  let wd := fresh "wd" in let i := fresh "i" in let ws := fresh "ws" in
  destruct g as [wd i [?b ws ?r ?u ?f] ?cm ?ms];
  destruct ws as [|?w0 [|?w1 [|?w2 [|?w3 ?tl]]]];
  destruct i as [[] [] [] [] []].

(** X5: on a vehicle with fewer than four wheels the mapper throws a
    [TypeError] while setting the engine force, before any steering or
    brake call; with at most two wheels it throws at its first call and
    leaves the state as it was. *)
Theorem updateVehicle_missing_wheel g :
  length (CANNON.wheelInfos (vehicle g)) < 4 ->
  exists g' tr,
    updateVehicle g = Throw TypeError g' tr /\
    List.filter is_steer_call tr = [] /\ List.filter is_brake_call tr = [] /\
    (length (CANNON.wheelInfos (vehicle g)) <= 2 -> g' = g).
Proof.
  intros H; shape g; cbn in H; try lia;
    do 2 eexists; (split; [crunch|]); (split; [crunch|]); (split; [crunch|]);
    cbn; intros; try lia; reflexivity.
Qed.

Lemma updateVehicle_missing_wheel_witness :
  let g := set_vehicle (CANNON.set_wheelInfos [] (vehicle Game_new)) Game_new in
  length (CANNON.wheelInfos (vehicle g)) < 4 /\
  exists tr, updateVehicle g = Throw TypeError g tr.
Proof.
  intros g.
  assert (H : length (CANNON.wheelInfos (vehicle g)) < 4) by (cbn; lia).
  split; [exact H|].
  destruct (updateVehicle_missing_wheel g H) as (g' & tr & Hrun & _ & _ & Hsame).
  exists tr. rewrite Hrun. rewrite (Hsame ltac:(cbn; lia)). reflexivity.
Defined.

(** X6: the mapper is idempotent: run twice in a row it leaves the state
    one run leaves, on any state (also one where it throws). *)
Theorem updateVehicle_idempotent g :
  state_of ((updateVehicle ;; updateVehicle) g) = state_of (updateVehicle g).
Proof. shape g; crunch. Qed.

(** What the mapper writes on a vehicle with four wheels or more, and
    what it leaves. *)
Lemma updateVehicle_frame g :
  4 <= length (CANNON.wheelInfos (vehicle g)) ->
  exists g' tr,
    updateVehicle g = Ok tt g' tr /\
    world g' = world g /\ inputs g' = inputs g /\
    chassisMesh g' = chassisMesh g /\ wheelVisuals g' = wheelVisuals g /\
    CANNON.chassisBody (vehicle g') = CANNON.chassisBody (vehicle g) /\
    length (CANNON.wheelInfos (vehicle g')) = length (CANNON.wheelInfos (vehicle g)) /\
    forall i w,
      wheelAt g i = Some w ->
      exists w',
        wheelAt g' i = Some w' /\
        CANNON.params w' = CANNON.params w /\
        CANNON.suspensionLength w' = CANNON.suspensionLength w /\
        CANNON.rotation w' = CANNON.rotation w /\
        CANNON.worldTransform w' = CANNON.worldTransform w /\
        (4 <= i -> w' = w).
Proof.
  intros H; shape g; cbn in H; try lia;
    do 2 eexists; (split; [crunch|]); do 6 (split; [crunch|]);
    intros [|[|[|[|k]]]] w Hw; cbn in Hw |- *;
    first [ injection Hw as <-; eexists; (split; [reflexivity|]);
            repeat split; try reflexivity; intros; lia
          | exists w; (split; [exact Hw|]); repeat split; reflexivity ].
Qed.

(** X7: on a vehicle with at least four wheels the mapper returns, and it
    writes nothing but engine force, steering and brake of the first four
    wheels: world, flags, chassis and meshes stay, every wheel keeps its
    parameters, suspension length, spin and world transform, and a wheel
    of index 4 or more is not touched at all. *)
Theorem updateVehicle_writes_intents_only g :
  4 <= length (CANNON.wheelInfos (vehicle g)) ->
  exists g' tr,
    updateVehicle g = Ok tt g' tr /\
    world g' = world g /\ inputs g' = inputs g /\
    chassisMesh g' = chassisMesh g /\ wheelVisuals g' = wheelVisuals g /\
    CANNON.chassisBody (vehicle g') = CANNON.chassisBody (vehicle g) /\
    length (CANNON.wheelInfos (vehicle g')) = length (CANNON.wheelInfos (vehicle g)) /\
    forall i w,
      wheelAt g i = Some w ->
      exists w',
        wheelAt g' i = Some w' /\
        CANNON.params w' = CANNON.params w /\
        CANNON.suspensionLength w' = CANNON.suspensionLength w /\
        CANNON.rotation w' = CANNON.rotation w /\
        CANNON.worldTransform w' = CANNON.worldTransform w /\
        (4 <= i -> w' = w).
Proof. exact (updateVehicle_frame g). Qed.

Lemma updateVehicle_writes_intents_only_witness :
  4 <= length (CANNON.wheelInfos (vehicle Game_new)) /\
  exists g' tr,
    updateVehicle Game_new = Ok tt g' tr /\
    wheelVisuals g' = wheelVisuals Game_new /\
    CANNON.chassisBody (vehicle g') = CANNON.chassisBody (vehicle Game_new).
Proof.
  assert (H : 4 <= length (CANNON.wheelInfos (vehicle Game_new))) by (cbn; lia).
  split; [exact H|].
  destruct (updateVehicle_writes_intents_only Game_new H)
    as (g' & tr & Hrun & _ & _ & _ & Hms & Hbody & _).
  exists g', tr. split; [exact Hrun|]. split; [exact Hms | exact Hbody].
Defined.

(** X8: the three parts of the mapper do not interfere.  Its engine calls
    and the engine force of wheels 2 and 3 depend on the forward and
    backward flags only, its steering calls and the steering of wheels 0
    and 1 on left and right only, its brake calls and every wheel's brake
    on the brake flag only: braking does not cut the engine. *)
Theorem updateVehicle_channels_independent g :
  rigged g ->
  let run i := updateVehicle (set_inputs i g) in
  forall i,
    (List.filter is_engine_call (trace_of (run i))
       = List.filter is_engine_call (trace_of (run (driveOnly i))) /\
     engineForceAt (state_of (run i)) 2 = engineForceAt (state_of (run (driveOnly i))) 2 /\
     engineForceAt (state_of (run i)) 3 = engineForceAt (state_of (run (driveOnly i))) 3) /\
    (List.filter is_steer_call (trace_of (run i))
       = List.filter is_steer_call (trace_of (run (steerOnly i))) /\
     steeringAt (state_of (run i)) 0 = steeringAt (state_of (run (steerOnly i))) 0 /\
     steeringAt (state_of (run i)) 1 = steeringAt (state_of (run (steerOnly i))) 1) /\
    (List.filter is_brake_call (trace_of (run i))
       = List.filter is_brake_call (trace_of (run (brakeOnly i))) /\
     (brakeAt (state_of (run i)) <$> seq 0 4) = (brakeAt (state_of (run (brakeOnly i))) <$> seq 0 4)).
Proof.
  intros H; cbv zeta;
    destruct (rigged_explicit g H)
      as (wd & i0 & b & w0 & w1 & w2 & w3 & r & u & f & cm & m0 & m1 & m2 & m3 & ->);
    intros [[] [] [] [] []]; conjs; crunch.
Qed.

Lemma updateVehicle_channels_independent_witness :
  rigged Game_new /\
  engineForceAt (state_of (updateVehicle (set_inputs (held true false true false true) Game_new))) 2
    = engineForceAt (state_of (updateVehicle (set_inputs (held true false false false false) Game_new))) 2.
Proof.
  split; [exact Game_new_rigged|].
  exact (proj1 (proj2 (proj1
    (updateVehicle_channels_independent Game_new Game_new_rigged
       (held true false true false true))))).
Defined.


(** ** Frames in sequence *)

(** What a frame leaves alone, and what it makes of the intents: those of
    one mapper update on the state the frame began with. *)
Lemma animate_frame_effect E delta g :
  rigged g ->
  exists g' tr,
    animate E delta g = Ok tt g' tr /\
    rigged g' /\ inputs g' = inputs g /\ world g' = world g /\
    CANNON.params <$> CANNON.wheelInfos (vehicle g')
      = CANNON.params <$> CANNON.wheelInfos (vehicle g) /\
    intents g' = intents (state_of (updateVehicle g)) /\
    intents (state_of (updateVehicle g')) = intents g'.
Proof.
  intros H; explode g H; do 2 eexists; (split; [crunch|]); conjs; crunch.
Qed.

(** X9: flags held over any positive number of frames, whatever the
    frames' deltas, leave every wheel's engine force, steering and brake
    exactly as one mapper update on the first state sets them; nothing
    builds up from frame to frame. *)
Theorem frames_hold_intents E ds :
  forall g,
    rigged g -> ds <> [] ->
    exists g' tr,
      run E (AnimationFrame <$> ds) g = Ok tt g' tr /\
      rigged g' /\ inputs g' = inputs g /\
      intents g' = intents (state_of (updateVehicle g)).
Proof.
  induction ds as [|d ds IH]; intros g H Hne; [congruence|].
  destruct (animate_frame_effect E d g H)
    as (g1 & tr1 & Hrun1 & H1 & Hin1 & _ & _ & Hint1 & Hfix1).
  destruct ds as [|d' ds].
  - exists g1, (tr1 ++ []). cbn. unfold bind. rewrite Hrun1. cbn. auto.
  - destruct (IH g1 H1 ltac:(discriminate)) as (g2 & tr2 & Hrun2 & H2 & Hin2 & Hint2).
    exists g2, (tr1 ++ tr2).
    change (run E (AnimationFrame <$> d :: d' :: ds) g)
      with ((animate E d ;; run E (AnimationFrame <$> d' :: ds)) g).
    unfold bind at 1. rewrite Hrun1, Hrun2.
    split; [reflexivity|]. split; [exact H2|]. split; [congruence|].
    rewrite Hint2, Hfix1. exact Hint1.
Qed.

Lemma frames_hold_intents_witness :
  let g := set_inputs (held false true false true true) Game_new in
  (rigged g /\ [0%float; 0.25%float; 0.016%float] <> []) /\
  exists g' tr,
    run still (AnimationFrame <$> [0%float; 0.25%float; 0.016%float]) g = Ok tt g' tr /\
    intents g' = intents (state_of (updateVehicle g)).
Proof.
  intros g.
  assert (Hne : [0%float; 0.25%float; 0.016%float] <> []) by discriminate.
  split; [split; [exact Game_new_rigged | exact Hne]|].
  destruct (frames_hold_intents still _ g Game_new_rigged Hne)
    as (g' & tr & Hrun & _ & _ & Hint).
  exists g', tr. split; [exact Hrun | exact Hint].
Defined.


(** ** The wheel loop, for any number of wheels *)

Lemma bind_Ok {A B} (m : M A) (k : A -> M B) g a g1 tr1 :
  m g = Ok a g1 tr1 ->
  bind m k g
    = match k a g1 with
      | Ok b g2 tr2 => Ok b g2 (tr1 ++ tr2)
      | Throw e g2 tr2 => Throw e g2 (tr1 ++ tr2)
      end.
Proof. intros H. unfold bind. rewrite H. reflexivity. Qed.

(** The pose [updateWheelTransform] gives a wheel, on the chassis [body]. *)
Lemma syncWheel_in_range E i g w m :
  wheelAt g i = Some w ->
  wheelVisuals g !! i = Some m ->
  let t := CANNON.wheelTransform E (CANNON.chassisBody (vehicle g)) w in
  exists g',
    syncWheel E i g = Ok tt g' (wheelSync i) /\
    world g' = world g /\ inputs g' = inputs g /\ chassisMesh g' = chassisMesh g /\
    CANNON.chassisBody (vehicle g') = CANNON.chassisBody (vehicle g) /\
    (forall j, wheelAt g' j
               = if decide (j = i) then Some (CANNON.set_worldTransform t w) else wheelAt g j) /\
    (forall j, wheelVisuals g' !! j
               = if decide (j = i) then Some (mkMesh (CANNON.position t) (CANNON.quaternion t))
                 else wheelVisuals g !! j).
Proof.
  intros Hw Hm t. destruct g as [wd inp [b ws r u f] cm ms].
  unfold wheelAt in *. cbn in Hw, Hm, t.
  eexists. split.
  - unfold syncWheel, updateWheelTransform, modifyWheel, modifyVisual,
      bind, emit, gets, modify, throw. cbn.
    rewrite Hw. cbn. rewrite list_lookup_alter_eq, Hw. cbn.
    rewrite Hm. cbn. rewrite list_lookup_alter_eq, Hm. cbn. reflexivity.
  - cbn. repeat split.
    + intros j. destruct (decide (j = i)) as [->|Hne].
      * rewrite list_lookup_alter_eq, Hw. reflexivity.
      * rewrite list_lookup_alter_ne by congruence. reflexivity.
    + intros j. destruct (decide (j = i)) as [->|Hne].
      * rewrite !list_lookup_alter_eq, Hm. reflexivity.
      * rewrite !list_lookup_alter_ne by congruence. reflexivity.
Qed.




Lemma bind_Throw {A B} (m : M A) (k : A -> M B) g e g1 tr1 :
  m g = Throw e g1 tr1 -> bind m k g = Throw e g1 tr1.
Proof. intros H. unfold bind. rewrite H. reflexivity. Qed.

(** A wheel without a mesh: the frame throws in its sync. *)
Lemma syncWheel_no_mesh E i g w :
  wheelAt g i = Some w ->
  wheelVisuals g !! i = None ->
  exists g' tr,
    syncWheel E i g = Throw TypeError g' tr /\ (RendererRender ∉ tr) /\
    CANNON.chassisBody (vehicle g') = CANNON.chassisBody (vehicle g) /\
    chassisMesh g' = chassisMesh g.
Proof.
  intros Hw Hm. destruct g as [wd inp [b ws r u f] cm ms].
  unfold wheelAt in *. cbn in Hw, Hm.
  do 2 eexists. split.
  - unfold syncWheel, updateWheelTransform, modifyWheel, modifyVisual,
      bind, emit, gets, modify, throw. cbn.
    rewrite Hw. cbn. rewrite list_lookup_alter_eq, Hw. cbn.
    rewrite Hm. cbn. reflexivity.
  - split; [|split; reflexivity].
    rewrite !not_elem_of_cons. repeat split; try discriminate. apply not_elem_of_nil.
Qed.

Lemma wheelSync_no_render l : RendererRender ∉ concat (wheelSync <$> l).
Proof.
  induction l as [|i l IH]; cbn; [apply not_elem_of_nil|].
  rewrite !not_elem_of_cons. repeat split; try discriminate. exact IH.
Qed.

Lemma syncWheels_no_mesh E k :
  forall a g,
    (forall j, a <= j < a + k -> is_Some (wheelAt g j)) ->
    (exists j, a <= j < a + k /\ wheelVisuals g !! j = None) ->
    exists g' tr,
      foldr (fun i rest => syncWheel E i ;; rest) (ret tt) (seq a k) g
        = Throw TypeError g' tr /\
      (RendererRender ∉ tr) /\
      CANNON.chassisBody (vehicle g') = CANNON.chassisBody (vehicle g) /\
      chassisMesh g' = chassisMesh g.
Proof.
  induction k as [|k IH]; intros a g Hws (j0 & Hj0 & Hnone); [lia|].
  destruct (Hws a ltac:(lia)) as [w Hw].
  destruct (wheelVisuals g !! a) as [m|] eqn:Hm.
  - destruct (syncWheel_in_range E a g w m Hw Hm)
      as (g1 & Hrun1 & _ & _ & Hcm1 & Hb1 & Hws1 & Hms1).
    destruct (IH (S a) g1) as (g2 & tr2 & Hrun2 & Hnr & Hb2 & Hcm2).
    { intros j Hj. rewrite Hws1. destruct (decide (j = a)); [lia|]. apply Hws. lia. }
    { exists j0. rewrite Hms1. destruct (decide (j0 = a)) as [->|]; [congruence|].
      split; [lia | exact Hnone]. }
    exists g2, (wheelSync a ++ tr2). cbn [seq foldr].
    rewrite (bind_Ok _ _ _ _ _ _ Hrun1), Hrun2.
    split; [reflexivity|]. split; [|split; congruence].
    rewrite not_elem_of_app. split; [|exact Hnr].
    unfold wheelSync. rewrite !not_elem_of_cons. repeat split; try discriminate.
    apply not_elem_of_nil.
  - destruct (syncWheel_no_mesh E a g w Hw Hm) as (g1 & tr1 & Hrun1 & Hnr & Hb1 & Hcm1).
    exists g1, tr1. cbn [seq foldr]. unfold bind at 1. rewrite Hrun1. auto.
Qed.

Lemma updateVehicle_mapper_calls g :
  4 <= length (CANNON.wheelInfos (vehicle g)) ->
  forallb is_mapper_call (trace_of (updateVehicle g)) = true.
Proof. intros H; shape g; cbn in H; try lia; crunch. Qed.

(** X11: when there are fewer meshes than wheels the frame throws a
    [TypeError] in the wheel loop.  By then the world has been stepped and
    the chassis mesh synced; the render call is never reached. *)
Theorem animate_missing_mesh E delta g :
  4 <= length (CANNON.wheelInfos (vehicle g)) ->
  length (wheelVisuals g) < length (CANNON.wheelInfos (vehicle g)) ->
  exists g' tr,
    animate E delta g = Throw TypeError g' tr /\
    (RendererRender ∉ tr) /\
    let body' := CANNON.integrate E (1 / 60) delta (CANNON.gravity (world g)) (vehicle g) in
    CANNON.chassisBody (vehicle g') = body' /\
    chassisMesh g' = mkMesh (CANNON.body_position body') (CANNON.body_quaternion body').
Proof.
  intros Hn Hm.
  set (n := length (CANNON.wheelInfos (vehicle g))) in *.
  set (body' := CANNON.integrate E (1 / 60) delta (CANNON.gravity (world g)) (vehicle g)).
  set (g1 := state_of (World_step E (1 / 60) delta g)).
  assert (Hstep : World_step E (1 / 60) delta g = Ok tt g1 [WorldStep (1 / 60) delta])
    by reflexivity.
  assert (Hlen1 : length (CANNON.wheelInfos (vehicle g1)) = n)
    by (cbn; apply length_imap).
  pose proof (updateVehicle_mapper_calls g1 ltac:(lia)) as Hcalls.
  destruct (updateVehicle_frame g1 ltac:(lia))
    as (g2 & tr_u & Hmap & Hwd2 & Hin2 & Hcm2 & Hms2 & Hb2 & Hlen2 & Hws2).
  rewrite Hmap in Hcalls. cbn [trace_of] in Hcalls.
  assert (Hbody1 : CANNON.chassisBody (vehicle g1) = body') by reflexivity.
  assert (Hms1 : wheelVisuals g1 = wheelVisuals g) by reflexivity.
  set (g3 := set_chassisMesh
               (mkMesh (CANNON.body_position body') (CANNON.body_quaternion body')) g2).
  destruct (syncWheels_no_mesh E n 0 g3) as (g4 & tr4 & Hloop & Hnr & Hb4 & Hcm4).
  { intros j Hj. apply lookup_lt_is_Some. cbn. lia. }
  { exists (length (wheelVisuals g)). split; [lia|].
    apply lookup_ge_None. cbn. rewrite Hms2, Hms1. lia. }
  do 2 eexists. split; [|split].
  - unfold animate.
    rewrite (bind_Ok _ _ g tt g [RequestAnimationFrame] eq_refl).
    rewrite (bind_Ok _ _ g tt g [ClockGetDelta] eq_refl).
    rewrite (bind_Ok _ _ g tt g1 _ Hstep).
    rewrite (bind_Ok _ _ g1 tt g2 _ Hmap).
    rewrite (bind_Ok _ _ g2 (CANNON.chassisBody (vehicle g2)) g2 [] eq_refl).
    rewrite (bind_Ok _ _ g2 tt g2 [ChassisMeshPositionCopy] eq_refl).
    erewrite (bind_Ok _ _ g2 tt _ [] eq_refl).
    erewrite (bind_Ok _ _ _ tt _ [ChassisMeshQuaternionCopy] eq_refl).
    erewrite (bind_Ok _ _ _ tt g3 []).
    2:{ unfold modify, g3, set_chassisMesh. cbn. rewrite Hb2, Hbody1. reflexivity. }
    rewrite (bind_Ok _ _ g3 n g3 []).
    2:{ unfold gets. cbn. rewrite Hlen2, Hlen1. reflexivity. }
    rewrite (bind_Throw _ _ g3 _ g4 tr4 Hloop). reflexivity.
  - cbn [app]. rewrite !not_elem_of_cons, !not_elem_of_app, !not_elem_of_cons.
    repeat split; try discriminate; try apply not_elem_of_nil; try exact Hnr.
    intros Hin. apply list_elem_of_In in Hin.
    apply (proj1 (forallb_forall _ _) Hcalls) in Hin. discriminate Hin.
  - cbn in Hb4, Hcm4. cbv zeta. split; congruence.
Qed.



(** ** The whole run, continued *)

Lemma handle_keeps_rig E e g :
  rigged g ->
  exists g' tr,
    handle E e g = Ok tt g' tr /\ rigged g' /\
    CANNON.params <$> CANNON.wheelInfos (vehicle g')
      = CANNON.params <$> CANNON.wheelInfos (vehicle g) /\
    world g' = world g /\
    (is_key_event e = false -> inputs g' = inputs g) /\
    (is_key_event e = true -> vehicle g' = vehicle g /\ tr = []).
Proof.
  intros H. destruct e as [key|key|delta]; cbn [handle is_key_event].
  - destruct (onKey_inputs_only true key g) as (i & Hi).
    exists (set_inputs i g), []. unfold keydown. rewrite Hi.
    split; [reflexivity|]. split; [exact H|]. do 2 (split; [reflexivity|]).
    split; [discriminate | intros _; split; reflexivity].
  - destruct (onKey_inputs_only false key g) as (i & Hi).
    exists (set_inputs i g), []. unfold keyup. rewrite Hi.
    split; [reflexivity|]. split; [exact H|]. do 2 (split; [reflexivity|]).
    split; [discriminate | intros _; split; reflexivity].
  - destruct (animate_frame_effect E delta g H)
      as (g' & tr & Hrun & H' & Hin & Hwd & Hpar & _).
    exists g', tr. split; [exact Hrun|]. split; [exact H'|]. split; [exact Hpar|].
    split; [exact Hwd|]. split; [intros _; exact Hin | discriminate].
Qed.

(** X12: from a state with four wheels and four meshes no sequence of key
    events and frames ever throws, and it keeps the four wheels, the four
    meshes, every wheel's fixed parameters and the world's gravity. *)
Theorem run_keeps_rig E es :
  forall g,
    rigged g ->
    exists g' tr,
      run E es g = Ok tt g' tr /\ rigged g' /\
      CANNON.params <$> CANNON.wheelInfos (vehicle g')
        = CANNON.params <$> CANNON.wheelInfos (vehicle g) /\
      world g' = world g.
Proof.
  induction es as [|e es IH]; intros g H.
  - exists g, []. repeat split; try reflexivity; apply H.
  - destruct (handle_keeps_rig E e g H) as (g1 & tr1 & Hrun1 & H1 & Hpar1 & Hwd1 & _).
    destruct (IH g1 H1) as (g2 & tr2 & Hrun2 & H2 & Hpar2 & Hwd2).
    exists g2, (tr1 ++ tr2). cbn [run].
    rewrite (bind_Ok _ _ _ _ _ _ Hrun1), Hrun2.
    repeat split; try congruence; apply H2.
Qed.

Lemma run_keeps_rig_witness :
  let es := [KeyDown "w"; AnimationFrame 0; KeyDown "A"; AnimationFrame 0.5; KeyUp "w";
             KeyDown " "; AnimationFrame 0.25] in
  rigged Game_new /\
  exists g' tr,
    run still es Game_new = Ok tt g' tr /\
    CANNON.params <$> CANNON.wheelInfos (vehicle g')
      = CANNON.params <$> CANNON.wheelInfos (vehicle Game_new).
Proof.
  intros es. split; [exact Game_new_rigged|].
  destruct (run_keeps_rig still es Game_new Game_new_rigged) as (g' & tr & Hrun & _ & Hpar & _).
  exists g', tr. split; [exact Hrun | exact Hpar].
Defined.

Lemma onKey_inputs value key g h :
  inputs g = inputs h ->
  inputs (state_of (onKey value key g)) = inputs (state_of (onKey value key h)).
Proof.
  destruct g as [wd i v cm ms], h as [wd' i' v' cm' ms']; cbn [inputs]; intros ->.
  unfold onKey.
  repeat match goal with
         | |- context [if ?c then _ else _] => destruct c
         end; reflexivity.
Qed.

Lemma state_of_bind_Ok {A B} (m : M A) (k : A -> M B) g a g1 tr1 :
  m g = Ok a g1 tr1 -> state_of (bind m k g) = state_of (k a g1).
Proof. intros H. rewrite (bind_Ok _ _ _ _ _ _ H). destruct (k a g1); reflexivity. Qed.

Lemma run_inputs_from_keys_gen E es :
  forall g h,
    rigged g -> inputs g = inputs h ->
    inputs (state_of (run E es g))
      = inputs (state_of (run E (List.filter is_key_event es) h)).
Proof.
  induction es as [|e es IH]; intros g h H Hin; [exact Hin|].
  destruct (handle_keeps_rig E e g H) as (g1 & tr1 & Hrun1 & H1 & _ & _ & Hframe & Hkey).
  cbn [run List.filter]. rewrite (state_of_bind_Ok _ _ _ _ _ _ Hrun1).
  destruct (is_key_event e) eqn:He.
  - cbn [run].
    assert (Hh : exists h1, handle E e h = Ok tt h1 [] /\ inputs h1 = inputs g1).
    { destruct e as [key|key|delta]; try discriminate He; cbn [handle] in *.
      - destruct (onKey_inputs_only true key h) as (i & Hi).
        exists (set_inputs i h). split; [exact Hi|].
        pose proof (onKey_inputs true key g h Hin) as Heq.
        unfold keydown in Hrun1. rewrite Hrun1 in Heq. rewrite Hi in Heq.
        symmetry. exact Heq.
      - destruct (onKey_inputs_only false key h) as (i & Hi).
        exists (set_inputs i h). split; [exact Hi|].
        pose proof (onKey_inputs false key g h Hin) as Heq.
        unfold keyup in Hrun1. rewrite Hrun1 in Heq. rewrite Hi in Heq.
        symmetry. exact Heq. }
    destruct Hh as (h1 & Hrunh & Hin1).
    rewrite (state_of_bind_Ok _ _ _ _ _ _ Hrunh). apply IH; [exact H1 | congruence].
  - apply IH; [exact H1|]. rewrite (Hframe eq_refl). exact Hin.
Qed.

(** X13: the flags are the keyboard's alone: after any sequence of key
    events and frames they are what the key events of the sequence, with
    the frames left out, make them. *)
Theorem run_inputs_from_keys E es g :
  rigged g ->
  inputs (state_of (run E es g))
    = inputs (state_of (run E (List.filter is_key_event es) g)).
Proof. intros H. apply run_inputs_from_keys_gen; [exact H | reflexivity]. Qed.

Lemma run_inputs_from_keys_witness :
  rigged Game_new /\
  inputs (state_of (run still [KeyDown "w"; AnimationFrame 0; KeyDown "d"; AnimationFrame 1;
                               KeyUp "W"] Game_new))
    = held false false false true false.
Proof.
  split; [exact Game_new_rigged|].
  rewrite (run_inputs_from_keys still _ Game_new Game_new_rigged).
  vm_compute. reflexivity.
Defined.


Lemma animate_missing_mesh_witness :
  let g := set_wheelVisuals [Mesh_new; Mesh_new] Game_new in
  (4 <= length (CANNON.wheelInfos (vehicle g)) /\
   length (wheelVisuals g) < length (CANNON.wheelInfos (vehicle g))) /\
  returns (animate still 0 g) = false.
Proof.
  intros g.
  assert (H1 : 4 <= length (CANNON.wheelInfos (vehicle g))) by (cbn; lia).
  assert (H2 : length (wheelVisuals g) < length (CANNON.wheelInfos (vehicle g)))
    by (cbn; lia).
  split; [split; assumption|].
  destruct (animate_missing_mesh still 0 g H1 H2) as (g' & tr & Hrun & _).
  rewrite Hrun. reflexivity.
Defined.
